(** * Safe asynchronous state controller (useAsync / useSafeDispatch)

    A shallow embedding of the hooks of exercise 02.extra-3:
    [useSafeDispatch], [asyncReducer], [useAsync] and its [run] callback,
    together with the part of the host (React lifecycle, promise
    reactions, microtask queue) that these hooks talk to. *)

From Stdlib Require Import ZArith String Ascii List Decimal DecimalString.
From stdpp Require Import base gmap strings list fin_maps.
Import ListNotations.

Local Open Scope string_scope.
Local Open Scope list_scope.

(** ** JavaScript values *)

(** The fragment of JavaScript values that reaches the hooks.  Numbers are
    the integer-valued ones that print in plain decimal; a string is the
    sequence of its UTF-16 code units, each below 256 and kept as one
    character; an [Error] object is kept as its [name] and [message]; a
    promise is a reference into the promise table of the host.  Functions
    are not values of the fragment. *)
#[warnings="-register-all"] Inductive value : Type :=
| VUndefined
| VNull
| VBool (b : bool)
| VNum (n : Z)
| VStr (s : string)
| VError (name : string) (message : string)
| VObject (fields : gmap string value)
| VPromise (id : nat).

(** Own enumerable properties of a plain object. *)
Abbreviation obj := (gmap string value).

(** [o.k]: reading a property that is absent gives [undefined]. *)
Definition get_prop (o : obj) (k : string) : value :=
  default VUndefined (o !! k).

(** ToBoolean. *)
Definition truthy (v : value) : bool :=
  match v with
  | VUndefined | VNull => false
  | VBool b => b
  | VNum n => negb (n =? 0)%Z
  | VStr s => negb (String.eqb s "")
  | VError _ _ | VObject _ | VPromise _ => true
  end.

Definition string_of_Z (n : Z) : string :=
  NilZero.string_of_int (Z.to_int n).

(** ToString, as a template literal applies it.  The text is the one
    JavaScript gives on the values [prints_exactly] below accepts: a larger
    number prints with an exponent, and an object with an own [toString],
    which no value of the fragment can make callable, makes the conversion
    throw. *)
Definition to_string (v : value) : string :=
  match v with
  | VUndefined => "undefined"
  | VNull => "null"
  | VBool true => "true"
  | VBool false => "false"
  | VNum n => string_of_Z n
  | VStr s => s
  | VError name message =>
      if String.eqb name "" then message
      else if String.eqb message "" then name
      else name +:+ ": " +:+ message
  | VObject _ => "[object Object]"
  | VPromise _ => "[object Promise]"
  end.

(** ** Completions *)

(** A JavaScript call either returns or throws a value. *)
Inductive completion (A : Type) : Type :=
| Normal (a : A)
| Throw (e : value).
Arguments Normal {A} a.
Arguments Throw {A} e.

Definition new_Error (message : string) : value := VError "Error" message.
Definition new_TypeError (message : string) : value := VError "TypeError" message.

(** ** AsyncState and the reducer *)

(** The object literal [{status, data, error}]. *)
Definition AsyncState (status : string) (data error : value) : obj :=
  {[ "status" := VStr status; "data" := data; "error" := error ]}.

(** [action.type], [action.data], [action.error] on an arbitrary value: a
    property read on [undefined] or [null] throws, a primitive, an [Error]
    or a promise has none of these properties. *)
Definition read_prop (v : value) (k : string) : completion value :=
  match v with
  | VUndefined | VNull =>
      Throw (new_TypeError
               ("Cannot read properties of " +:+ to_string v
                  +:+ " (reading '" +:+ k +:+ "')"))
  | VObject fields => Normal (get_prop fields k)
  | VStr _ | VBool _ | VNum _ | VError _ _ | VPromise _ => Normal VUndefined
  end.

(** [v === s] for a string literal [s], the comparison a [switch] makes. *)
Definition strict_eq_str (v : value) (s : string) : bool :=
  match v with
  | VStr s' => String.eqb s' s
  | _ => false
  end.

Definition asyncReducer (state : obj) (action : value) : completion obj :=
  match read_prop action "type" with
  | Throw e => Throw e
  | Normal ty =>
      if strict_eq_str ty "pending" then
        Normal (AsyncState "pending" VNull VNull)
      else if strict_eq_str ty "resolved" then
        match read_prop action "data" with
        | Normal d => Normal (AsyncState "resolved" d VNull)
        | Throw e => Throw e
        end
      else if strict_eq_str ty "rejected" then
        match read_prop action "error" with
        | Normal e => Normal (AsyncState "rejected" VNull e)
        | Throw e => Throw e
        end
      else Throw (new_Error ("Unhandled action type: " +:+ to_string ty))
  end.

(** ** The host: one component instance *)

(** Where React is in the life of the component instance that called
    [useAsync]: rendered but layout effects not yet run, mounted, or
    unmounted for good. *)
Inductive lifecycle : Type := Rendered | Mounted | Unmounted.

(** How a promise settled. *)
Inductive settlement : Type :=
| Fulfilled (result : value)
| Rejected (reason : value).

(** The store the hooks of one instance read and write.
    - [mountedRef] is [mountedRef.current];
    - [state] is the state held by [React.useReducer];
    - [delivered] records, oldest first, the actions the raw dispatch was
      called with (an observation, nothing reads it);
    - [settled] is the promise table (a promise absent from it is pending);
    - [reactions] lists the pending promises on which [run] registered its
      two continuations, in registration order;
    - [jobs] is the microtask queue: continuations of [run] whose promise
      has settled, each with the settlement it will be called with. *)
Record world : Type := World {
  phase : lifecycle;
  mountedRef : bool;
  state : gmap string value;
  delivered : list value;
  settled : gmap nat settlement;
  reactions : list nat;
  jobs : list settlement
}.

Definition set_phase (ph : lifecycle) (w : world) : world :=
  World ph (mountedRef w) (state w) (delivered w) (settled w) (reactions w) (jobs w).
Definition set_mountedRef (b : bool) (w : world) : world :=
  World (phase w) b (state w) (delivered w) (settled w) (reactions w) (jobs w).
Definition set_state (s : gmap string value) (w : world) : world :=
  World (phase w) (mountedRef w) s (delivered w) (settled w) (reactions w) (jobs w).
Definition log_delivered (a : value) (w : world) : world :=
  World (phase w) (mountedRef w) (state w) (delivered w ++ [a]) (settled w)
        (reactions w) (jobs w).
Definition set_reactions (r : list nat) (w : world) : world :=
  World (phase w) (mountedRef w) (state w) (delivered w) (settled w) r (jobs w).
Definition set_jobs (j : list settlement) (w : world) : world :=
  World (phase w) (mountedRef w) (state w) (delivered w) (settled w) (reactions w) j.

(** ** Effectful code: state that survives a throw *)

Definition M (A : Type) : Type := world -> completion A * world.

Definition ret {A} (a : A) : M A := fun w => (Normal a, w).
Definition throw {A} (e : value) : M A := fun w => (Throw e, w).
Definition bind {A B} (m : M A) (k : A -> M B) : M B :=
  fun w =>
    match m w with
    | (Normal a, w') => k a w'
    | (Throw e, w') => (Throw e, w')
    end.
Definition gets {A} (f : world -> A) : M A := fun w => (Normal (f w), w).
Definition modify (f : world -> world) : M unit := fun w => (Normal tt, f w).

Declare Scope js_scope.
Delimit Scope js_scope with js.
Notation "x <- m ;; k" := (bind m (fun x => k))
  (at level 100, m at next level, right associativity) : js_scope.
Notation "m ;; k" := (bind m (fun _ => k))
  (at level 100, right associativity) : js_scope.
Local Open Scope js_scope.

(** ** useSafeDispatch *)

(** The layout effect and its cleanup. *)
Definition useSafeDispatch_effect : M unit := modify (set_mountedRef true).
Definition useSafeDispatch_cleanup : M unit := modify (set_mountedRef false).

(** The callback [useSafeDispatch(dispatch)] returns. *)
Definition useSafeDispatch (dispatch : list value -> M unit) : list value -> M unit :=
  fun args =>
    mounted <- gets mountedRef ;;
    if mounted then dispatch args else ret tt.

(** ** useAsync *)

(** [{...v}]: the own enumerable properties of [v]. *)
Definition string_of_nat (i : nat) : string :=
  NilZero.string_of_uint (Nat.to_uint i).

Fixpoint string_props (i : nat) (s : string) : obj :=
  match s with
  | EmptyString => ∅
  | String c s' => <[string_of_nat i := VStr (String c EmptyString)]> (string_props (S i) s')
  end.

Definition spread (v : value) : obj :=
  match v with
  | VObject fields => fields
  | VStr s => string_props 0 s
  | VUndefined | VNull | VBool _ | VNum _ | VError _ _ | VPromise _ => ∅
  end.

(** [{status: 'idle', data: null, error: null, ...initialState}]: a later
    property wins. *)
Definition useAsync_initialState (initialState : value) : obj :=
  spread initialState ∪ AsyncState "idle" VNull VNull.

(** The dispatch function [React.useReducer(asyncReducer, _)] hands out:
    the action is its first argument, the reducer is applied to the stored
    state, and what the reducer throws surfaces as a throw. *)
Definition unsafeDispatch (args : list value) : M unit :=
  let action := nth 0 args VUndefined in
  modify (log_delivered action) ;;
  s <- gets state ;;
  match asyncReducer s action with
  | Normal s' => modify (set_state s')
  | Throw e => throw e
  end.

Definition dispatch : list value -> M unit := useSafeDispatch unsafeDispatch.

Definition action_pending : value := VObject {[ "type" := VStr "pending" ]}.
Definition action_resolved (data : value) : value :=
  VObject {[ "type" := VStr "resolved"; "data" := data ]}.
Definition action_rejected (error : value) : value :=
  VObject {[ "type" := VStr "rejected"; "error" := error ]}.

(** The two continuations [run] passes to [promise.then]. *)
Definition run_onFulfilled (data : value) : M unit := dispatch [action_resolved data].
Definition run_onRejected (error : value) : M unit := dispatch [action_rejected error].

Definition run_reaction (o : settlement) : M unit :=
  match o with
  | Fulfilled data => run_onFulfilled data
  | Rejected error => run_onRejected error
  end.

(** [promise.then(onFulfilled, onRejected)] with the two continuations
    above.  On a promise the pair is registered, or queued as a microtask
    when the promise has already settled; no other value of the fragment
    has a callable [then]. *)
Definition promise_then (promise : value) : M unit :=
  match promise with
  | VPromise p =>
      t <- gets settled ;;
      match t !! p with
      | Some o => modify (fun w => set_jobs (jobs w ++ [o]) w)
      | None => modify (fun w => set_reactions (reactions w ++ [p]) w)
      end
  | _ => throw (new_TypeError "promise.then is not a function")
  end.

Definition run (promise : value) : M unit :=
  if negb (truthy promise) then ret tt
  else
    dispatch [action_pending] ;;
    promise_then promise.

(** What [run] leaves behind when it is given the promise [p], in one
    piece: [pending] dispatched through the safe dispatcher, then the
    continuations registered on [p], or queued when [p] has settled
    ([run_promise] below proves that this is what [run] does). *)
Definition run_promise_effect (p : nat) (w : world) : world :=
  let w1 :=
    if mountedRef w
    then set_state (AsyncState "pending" VNull VNull) (log_delivered action_pending w)
    else w in
  match settled w !! p with
  | Some o => set_jobs (jobs w1 ++ [o]) w1
  | None => set_reactions (reactions w1 ++ [p]) w1
  end.

(** The first render: [useRef(false)] and the reducer's initial state.
    What [useAsync] returns, [{...state, run}], is the properties of
    [state] together with [run]. *)
Definition useAsync (initialState : value) : world :=
  {| phase := Rendered;
     mountedRef := false;
     state := useAsync_initialState initialState;
     delivered := [];
     settled := ∅;
     reactions := [];
     jobs := [] |}.

(** [PokemonInfo] starts its controller in [pending] when it has a name. *)
Definition PokemonInfo_initialState (pokemonName : value) : value :=
  VObject {[ "status" := VStr (if truthy pokemonName then "pending" else "idle") ]}.

(** ** What can happen to an instance *)

Inductive event : Type :=
| Mount                               (* React runs the layout effect *)
| Unmount                             (* React runs its cleanup *)
| CallRun (arg : value)               (* the consumer calls [run(arg)] *)
| Settle (p : nat) (o : settlement)   (* the operation behind [p] settles *)
| Microtask.                          (* the event loop runs the next job *)

(** Settling [p] with [o]: every continuation pair registered on [p]
    becomes a job, in registration order. *)
Definition settle (p : nat) (o : settlement) (w : world) : world :=
  let fired := List.filter (Nat.eqb p) (reactions w) in
  let kept := List.filter (fun q => negb (Nat.eqb p q)) (reactions w) in
  World (phase w) (mountedRef w) (state w) (delivered w)
        (<[p := o]> (settled w)) kept (jobs w ++ List.map (fun _ => o) fired).

(** One event.  [None]: the event cannot happen in this world (an effect
    with no dependencies runs once, its cleanup once and only after it, a
    promise settles once, an empty queue has no job to run). *)
Definition step (e : event) (w : world) : option (completion unit * world) :=
  match e with
  | Mount =>
      match phase w with
      | Rendered => Some (useSafeDispatch_effect (set_phase Mounted w))
      | _ => None
      end
  | Unmount =>
      match phase w with
      | Mounted => Some (useSafeDispatch_cleanup (set_phase Unmounted w))
      | _ => None
      end
  | CallRun arg => Some (run arg w)
  | Settle p o =>
      match settled w !! p with
      | None => Some (Normal tt, settle p o w)
      | Some _ => None
      end
  | Microtask =>
      match jobs w with
      | o :: rest => Some (run_reaction o (set_jobs rest w))
      | [] => None
      end
  end.

(** A trace of events; what an event throws goes to whoever caused it and
    the instance lives on. *)
Fixpoint exec (tr : list event) (w : world) : option world :=
  match tr with
  | [] => Some w
  | e :: tr' =>
      match step e w with
      | Some (_, w') => exec tr' w'
      | None => None
      end
  end.

(** ** The invariant of section 3 of the specification *)

Definition is_null (v : value) : bool :=
  match v with VNull => true | _ => false end.

(** [data] is non-null only in [resolved], [error] only in [rejected]; in
    particular both are null in [idle] and [pending] and never both
    non-null. *)
Definition AsyncState_invariant (s : obj) : Prop :=
  (is_null (get_prop s "data") = false -> get_prop s "status" = VStr "resolved")
  /\ (is_null (get_prop s "error") = false -> get_prop s "status" = VStr "rejected").

(** The state a settlement leaves when it is delivered. *)
Definition state_of_settlement (o : settlement) : obj :=
  match o with
  | Fulfilled data => AsyncState "resolved" data VNull
  | Rejected error => AsyncState "rejected" VNull error
  end.

(** The inputs [run] is specified for: nothing (any falsy value) or a
    promise. *)
Definition optional_awaitable (v : value) : bool :=
  negb (truthy v) || match v with VPromise _ => true | _ => false end.

(** ** PokemonInfo *)

(** What [PokemonInfo] returns: the text, or one of the two elements it
    builds from components of [../pokemon]. *)
Inductive rendered : Type :=
| Text (s : string)
| PokemonInfoFallback (name : value)
| PokemonDataView (pokemon : value).

(** The body of [PokemonInfo] after the hooks: the branch on [status]. *)
Definition PokemonInfo (pokemonName : value) (w : world) : completion rendered :=
  let status := get_prop (state w) "status" in
  if strict_eq_str status "idle" || negb (truthy pokemonName) then
    Normal (Text "Submit a pokemon")
  else if strict_eq_str status "pending" then
    Normal (PokemonInfoFallback pokemonName)
  else if strict_eq_str status "rejected" then
    Throw (get_prop (state w) "error")
  else if strict_eq_str status "resolved" then
    Normal (PokemonDataView (get_prop (state w) "data"))
  else Throw (new_Error "This should be impossible").

(** The effect of [PokemonInfo]; [fetchPokemon] comes from [../pokemon]
    and is taken as given. *)
Definition PokemonInfo_effect (fetchPokemon : value -> value) (pokemonName : value)
  : M unit :=
  if negb (truthy pokemonName) then ret tt
  else run (fetchPokemon pokemonName).

(** The four statuses. *)
Definition known_status (s : obj) : bool :=
  let status := get_prop s "status" in
  strict_eq_str status "idle" || strict_eq_str status "pending"
  || strict_eq_str status "resolved" || strict_eq_str status "rejected".

(** The actions [run] and its continuations dispatch. *)
Definition run_action (a : value) : Prop :=
  a = action_pending
  \/ (exists data, a = action_resolved data)
  \/ (exists error, a = action_rejected error).

(** ** Addition, as the counters use it *)

(** The numbers [+] is exact on. *)
Definition safe_integer (n : Z) : bool :=
  ((- 2 ^ 53 <? n) && (n <? 2 ^ 53))%Z.

(** The values on which [to_string] is the text JavaScript produces: a
    number has to be a safe integer, an object must not have an own
    [toString] property. *)
Definition prints_exactly (v : value) : bool :=
  match v with
  | VNum n => safe_integer n
  | VObject fields =>
      match fields !! "toString" with
      | None => true
      | Some _ => false
      end
  | VUndefined | VNull | VBool _ | VStr _ | VError _ _ | VPromise _ => true
  end.

(** ToPrimitive gives a string for these, so [+] concatenates. *)
Definition adds_as_string (v : value) : bool :=
  match v with
  | VStr _ | VError _ _ | VObject _ | VPromise _ => true
  | VUndefined | VNull | VBool _ | VNum _ => false
  end.

(** ToNumber on the other values; [None] is NaN. *)
Definition to_number (v : value) : option Z :=
  match v with
  | VNum n => Some n
  | VNull => Some 0%Z
  | VBool b => Some (if b then 1 else 0)%Z
  | _ => None
  end.

(** [a + b].  [None]: the sum is not covered (it is NaN, an operand or the
    sum is a number that is not a safe integer, or the text of an operand
    is not the one [to_string] gives). *)
Definition js_add (a b : value) : option value :=
  if adds_as_string a || adds_as_string b then
    if prints_exactly a && prints_exactly b
    then Some (VStr (to_string a +:+ to_string b))
    else None
  else
    match to_number a, to_number b with
    | Some x, Some y =>
        if safe_integer x && safe_integer y && safe_integer (x + y)
        then Some (VNum (x + y)) else None
    | _, _ => None
    end.

(** A default in a destructured parameter applies to [undefined] only. *)
Definition default_param (v d : value) : value :=
  match v with
  | VUndefined => d
  | _ => v
  end.

(** [n] copies of [s] in a row. *)
Fixpoint string_repeat (s : string) (n : nat) : string :=
  match n with
  | O => ""
  | S n' => s +:+ string_repeat s n'
  end.

(** ** useReducer: simple Counter *)

Module SimpleCounter.

Definition countReducer (state newState : value) : option value :=
  js_add state newState.

(** [Counter({initialCount = 0, step = 2})]. *)
Definition initialCount (props : obj) : value :=
  default_param (get_prop props "initialCount") (VNum 0).
Definition step (props : obj) : value :=
  default_param (get_prop props "step") (VNum 2).

(** [increment]: [changeCount(step)]. *)
Definition increment (props : obj) (count : value) : option value :=
  countReducer count (step props).

(** The count after [n] clicks on the button. *)
Fixpoint clicks (n : nat) (props : obj) (count : value) : option value :=
  match n with
  | O => Some count
  | S n' =>
      match increment props count with
      | Some count' => clicks n' props count'
      | None => None
      end
  end.

Definition Counter (n : nat) (props : obj) : option value :=
  clicks n props (initialCount props).

End SimpleCounter.

(** ** useReducer: the action object *)

Module ActionCounter.

(** [const {k} = action]. *)
Definition destructure (v : value) (k : string) : completion value :=
  match v with
  | VUndefined | VNull =>
      Throw (new_TypeError
               ("Cannot destructure property '" +:+ k +:+ "' of 'action' as it is "
                  +:+ to_string v +:+ "."))
  | _ => read_prop v k
  end.

(** [None]: [state.count + step] is not a value of the fragment. *)
Definition countReducer (state action : value) : option (completion obj) :=
  match destructure action "type" with
  | Throw e => Some (Throw e)
  | Normal type =>
      match destructure action "step" with
      | Throw e => Some (Throw e)
      | Normal step =>
          if strict_eq_str type "INCREMENT" then
            match read_prop state "count" with
            | Throw e => Some (Throw e)
            | Normal count =>
                match js_add count step with
                | Some sum => Some (Normal (<["count" := sum]> (spread state)))
                | None => None
                end
            end
          else
            Some (Throw (new_Error ("Unsupported action type: " +:+ to_string type)))
      end
  end.

(** [Counter({initialCount = 0, step = 1})]. *)
Definition initialCount (props : obj) : value :=
  default_param (get_prop props "initialCount") (VNum 0).
Definition step (props : obj) : value :=
  default_param (get_prop props "step") (VNum 1).

Definition initialState (props : obj) : obj :=
  {[ "count" := initialCount props ]}.

(** [increment]: [dispatch({type: 'INCREMENT', step})]. *)
Definition increment (props : obj) (state : obj) : option (completion obj) :=
  countReducer (VObject state)
               (VObject {[ "type" := VStr "INCREMENT"; "step" := step props ]}).

(** The state after [n] clicks; a throw ends the run. *)
Fixpoint clicks (n : nat) (props : obj) (state : obj) : option (completion obj) :=
  match n with
  | O => Some (Normal state)
  | S n' =>
      match increment props state with
      | Some (Normal state') => clicks n' props state'
      | other => other
      end
  end.

(** The child of the button after [n] clicks: [state.count]. *)
Definition Counter (n : nat) (props : obj) : option (completion value) :=
  match clicks n props (initialState props) with
  | Some (Normal state) => Some (Normal (get_prop state "count"))
  | Some (Throw e) => Some (Throw e)
  | None => None
  end.

End ActionCounter.

(** ** useContext: the count context *)

Module CountContext.

(** What a consumer of [CountContext] can read: the array
    [[count, setCount]] that [CountProvider] builds, of which the state
    setter is left implicit, or a value of the fragment. *)
Inductive context_value : Type :=
| CountPair (count : value)
| Plain (v : value).

(** [React.createContext()]: no default value. *)
Definition CountContext_default : context_value := Plain VUndefined.

(** [<CountContext.Provider value={value} {...props} />]: the props are
    spread after [value], so a [value] prop of the caller wins. *)
Definition CountProvider (count : value) (props : obj) : context_value :=
  match props !! "value" with
  | Some v => Plain v
  | None => CountPair count
  end.

(** [React.useContext(CountContext)] under the nearest provider, if any. *)
Definition useContext (provided : option context_value) : context_value :=
  default CountContext_default provided.

Definition useCount (provided : option context_value) : completion context_value :=
  match useContext provided with
  | Plain VUndefined =>
      Throw (new_Error "useCount must be used within a CountProvider")
  | context => Normal context
  end.

(** [const [count] = context]. *)
Definition first_element (context : context_value) : completion value :=
  match context with
  | CountPair count => Normal count
  | Plain (VStr (String c _)) => Normal (VStr (String c EmptyString))
  | Plain (VStr EmptyString) => Normal VUndefined
  | Plain v => Throw (new_TypeError (to_string v +:+ " is not iterable"))
  end.

(** The text [CountDisplay] renders. *)
Definition CountDisplay (provided : option context_value) : completion string :=
  match useCount provided with
  | Throw e => Throw e
  | Normal context =>
      match first_element context with
      | Throw e => Throw e
      | Normal count => Normal ("The current count is " +:+ to_string count)
      end
  end.

(** [increment] of [Counter]: [setCount(c => c + 1)] on the provider's
    state. *)
Definition increment (count : value) : option value := js_add count (VNum 1).

(** The provider's state after [n] clicks, from [useState(0)]. *)
Fixpoint clicks (n : nat) (count : value) : option value :=
  match n with
  | O => Some count
  | S n' =>
      match increment count with
      | Some count' => clicks n' count'
      | None => None
      end
  end.

(** What [App] shows after [n] clicks: [CountDisplay] under a
    [CountProvider] that was given [props]. *)
Definition App (n : nat) (props : obj) : option (completion string) :=
  match clicks n (VNum 0) with
  | Some count => Some (CountDisplay (Some (CountProvider count props)))
  | None => None
  end.

End CountContext.

(** ** Small runs *)

Example run_resolves_42 :
  state <$> exec [Mount; CallRun (VPromise 0); Settle 0 (Fulfilled (VNum 42)); Microtask]
                 (useAsync VUndefined)
  = Some (AsyncState "resolved" (VNum 42) VNull).
Proof. vm_compute. reflexivity. Qed.

Example run_rejects_boom :
  state <$> exec [Mount; CallRun (VPromise 0); Settle 0 (Rejected (VStr "boom")); Microtask]
                 (useAsync VUndefined)
  = Some (AsyncState "rejected" VNull (VStr "boom")).
Proof. vm_compute. reflexivity. Qed.

Example run_pending_before_settlement :
  state <$> exec [Mount; CallRun (VPromise 0)] (useAsync VUndefined)
  = Some (AsyncState "pending" VNull VNull).
Proof. vm_compute. reflexivity. Qed.

Example run_on_settled_promise_is_still_deferred :
  state <$> exec [Mount; Settle 0 (Fulfilled (VNum 1)); CallRun (VPromise 0)]
                 (useAsync VUndefined)
  = Some (AsyncState "pending" VNull VNull).
Proof. vm_compute. reflexivity. Qed.

Example unhandled_message :
  asyncReducer ∅ (VObject {[ "type" := VNum (-12) ]})
  = Throw (new_Error "Unhandled action type: -12").
Proof. vm_compute. reflexivity. Qed.

Example spread_string :
  spread (VStr "ab") = {[ "0" := VStr "a"; "1" := VStr "b" ]}.
Proof. vm_compute. reflexivity. Qed.

Example no_remount : exec [Mount; Unmount; Mount] (useAsync VUndefined) = None.
Proof. reflexivity. Qed.

(** ** Reading the fields of an AsyncState *)

Lemma AsyncState_status st d e : get_prop (AsyncState st d e) "status" = VStr st.
Proof. reflexivity. Qed.

Lemma AsyncState_data st d e : get_prop (AsyncState st d e) "data" = d.
Proof. reflexivity. Qed.

Lemma AsyncState_error st d e : get_prop (AsyncState st d e) "error" = e.
Proof. reflexivity. Qed.

(** ** The reducer *)

(** The reducer never looks at the state it is given. *)
Lemma asyncReducer_ignores_state (s1 s2 : obj) (a : value) :
  asyncReducer s1 a = asyncReducer s2 a.
Proof. reflexivity. Qed.

Lemma strict_eq_str_true (v : value) (s : string) :
  strict_eq_str v s = true <-> v = VStr s.
Proof.
  destruct v; simpl; try (split; [discriminate | congruence]).
  rewrite String.eqb_eq. split; congruence.
Qed.

Lemma strict_eq_str_false (v : value) (s : string) :
  v <> VStr s -> strict_eq_str v s = false.
Proof.
  intros Hne. destruct (strict_eq_str v s) eqn:E; [|reflexivity].
  apply strict_eq_str_true in E. contradiction.
Qed.

Lemma asyncReducer_pending_obj (s extra : obj) :
  asyncReducer s (VObject (<["type" := VStr "pending"]> extra))
  = Normal (AsyncState "pending" VNull VNull).
Proof.
  unfold asyncReducer, read_prop, get_prop. rewrite lookup_insert_eq. reflexivity.
Qed.

Lemma asyncReducer_resolved_obj (s extra : obj) :
  asyncReducer s (VObject (<["type" := VStr "resolved"]> extra))
  = Normal (AsyncState "resolved" (get_prop extra "data") VNull).
Proof.
  unfold asyncReducer, read_prop, get_prop. rewrite lookup_insert_eq.
  rewrite !lookup_insert_ne by discriminate. reflexivity.
Qed.

Lemma asyncReducer_rejected_obj (s extra : obj) :
  asyncReducer s (VObject (<["type" := VStr "rejected"]> extra))
  = Normal (AsyncState "rejected" VNull (get_prop extra "error")).
Proof.
  unfold asyncReducer, read_prop, get_prop. rewrite lookup_insert_eq.
  rewrite !lookup_insert_ne by discriminate. reflexivity.
Qed.

(** C3: from every current state, [pending] leads to
    [{status: pending, data: null, error: null}], [resolved] carrying
    [data] to [{status: resolved, data, error: null}] and [rejected]
    carrying [error] to [{status: rejected, data: null, error}]; the
    current state plays no part, whatever else the action object holds. *)
Theorem asyncReducer_transitions (current extra : obj) (data error : value) :
  asyncReducer current (VObject (<["type" := VStr "pending"]> extra))
    = Normal (AsyncState "pending" VNull VNull)
  /\ asyncReducer current
       (VObject (<["type" := VStr "resolved"]> (<["data" := data]> extra)))
    = Normal (AsyncState "resolved" data VNull)
  /\ asyncReducer current
       (VObject (<["type" := VStr "rejected"]> (<["error" := error]> extra)))
    = Normal (AsyncState "rejected" VNull error)
  /\ asyncReducer current action_pending = Normal (AsyncState "pending" VNull VNull)
  /\ asyncReducer current (action_resolved data)
    = Normal (AsyncState "resolved" data VNull)
  /\ asyncReducer current (action_rejected error)
    = Normal (AsyncState "rejected" VNull error).
Proof.
  repeat split.
  - apply asyncReducer_pending_obj.
  - rewrite asyncReducer_resolved_obj. unfold get_prop.
    rewrite lookup_insert_eq. reflexivity.
  - rewrite asyncReducer_rejected_obj. unfold get_prop.
    rewrite lookup_insert_eq. reflexivity.
Qed.

(** C9: an action whose [type] is none of ['pending'], ['resolved'],
    ['rejected'] makes the reducer throw
    [Error("Unhandled action type: <type>")]; no state is returned.  The
    type is any value whose text is exact: every string, [undefined] for
    an action without a type, [null], a boolean, a safe integer, an object
    without an own [toString]. *)
Theorem asyncReducer_unhandled_action_throws
    (current : obj) (action ty : value) :
  read_prop action "type" = Normal ty ->
  prints_exactly ty = true ->
  ty <> VStr "pending" -> ty <> VStr "resolved" -> ty <> VStr "rejected" ->
  asyncReducer current action
  = Throw (new_Error ("Unhandled action type: " +:+ to_string ty)).
Proof.
  intros Hty _ Hp Hr Hj. unfold asyncReducer. rewrite Hty.
  rewrite !strict_eq_str_false by assumption. reflexivity.
Qed.

Lemma asyncReducer_unhandled_action_throws_witness :
  asyncReducer (AsyncState "idle" VNull VNull)
               (VObject {[ "type" := VStr "INCREMENT"; "step" := VNum 1 ]})
  = Throw (new_Error "Unhandled action type: INCREMENT").
Proof.
  apply (asyncReducer_unhandled_action_throws _ _ (VStr "INCREMENT"));
    [reflexivity | reflexivity | discriminate | discriminate | discriminate].
Defined.

(** ** The initial state *)

Lemma useAsync_initialState_lookup (initialState : value) (k : string) :
  useAsync_initialState initialState !! k
  = match spread initialState !! k with
    | Some v => Some v
    | None => AsyncState "idle" VNull VNull !! k
    end.
Proof.
  unfold useAsync_initialState. rewrite lookup_union.
  destruct (spread initialState !! k); simpl.
  - destruct (AsyncState "idle" VNull VNull !! k); reflexivity.
  - destruct (AsyncState "idle" VNull VNull !! k); reflexivity.
Qed.

(** C8: with no override the controller starts in
    [{status: idle, data: null, error: null}]; an override object replaces
    exactly the properties it supplies and leaves the other defaults, so
    [{status: 'pending'}] starts the controller in
    [{status: pending, data: null, error: null}]. *)
Theorem useAsync_initial_state (override : obj) (k : string) :
  state (useAsync VUndefined) = AsyncState "idle" VNull VNull
  /\ get_prop (state (useAsync (VObject override))) k
     = match override !! k with
       | Some v => v
       | None => get_prop (AsyncState "idle" VNull VNull) k
       end
  /\ state (useAsync (VObject {[ "status" := VStr "pending" ]}))
     = AsyncState "pending" VNull VNull
  /\ state (useAsync (PokemonInfo_initialState (VStr "pikachu")))
     = AsyncState "pending" VNull VNull.
Proof.
  split; [|split; [|split]].
  - vm_compute. reflexivity.
  - simpl. unfold get_prop at 1. rewrite useAsync_initialState_lookup. simpl.
    destruct (override !! k); reflexivity.
  - vm_compute. reflexivity.
  - vm_compute. reflexivity.
Qed.

(** ** The safe dispatcher *)

Lemma useSafeDispatch_unfold (D : list value -> M unit) (args : list value) (w : world) :
  useSafeDispatch D args w = if mountedRef w then D args w else (Normal tt, w).
Proof.
  unfold useSafeDispatch, bind, gets, ret. destruct (mountedRef w); reflexivity.
Qed.

Lemma unsafeDispatch_delivered (args : list value) (w : world) :
  delivered (snd (unsafeDispatch args w)) = delivered w ++ [nth 0 args VUndefined].
Proof.
  unfold unsafeDispatch, bind, gets, modify, throw. simpl.
  destruct (asyncReducer (state w) (nth 0 args VUndefined)); reflexivity.
Qed.

Lemma unsafeDispatch_pending (w : world) :
  unsafeDispatch [action_pending] w
  = (Normal tt,
     set_state (AsyncState "pending" VNull VNull) (log_delivered action_pending w)).
Proof. reflexivity. Qed.

Lemma unsafeDispatch_resolved (data : value) (w : world) :
  unsafeDispatch [action_resolved data] w
  = (Normal tt,
     set_state (AsyncState "resolved" data VNull)
               (log_delivered (action_resolved data) w)).
Proof. reflexivity. Qed.

Lemma unsafeDispatch_rejected (error : value) (w : world) :
  unsafeDispatch [action_rejected error] w
  = (Normal tt,
     set_state (AsyncState "rejected" VNull error)
               (log_delivered (action_rejected error) w)).
Proof. reflexivity. Qed.

(** C2: the wrapped dispatcher applied to any arguments is the raw
    dispatcher applied to the same arguments when [mountedRef.current] is
    true at that moment, and otherwise returns normally leaving everything
    as it was; on the reducer's own dispatch, the action is delivered
    exactly when the flag is true. *)
Theorem useSafeDispatch_delegates_iff_mounted
    (D : list value -> M unit) (args : list value) (w : world) :
  useSafeDispatch D args w = (if mountedRef w then D args w else (Normal tt, w))
  /\ delivered (snd (dispatch args w))
     = (if mountedRef w then delivered w ++ [nth 0 args VUndefined] else delivered w).
Proof.
  split; [apply useSafeDispatch_unfold|].
  unfold dispatch. rewrite useSafeDispatch_unfold.
  destruct (mountedRef w); [apply unsafeDispatch_delivered | reflexivity].
Qed.

(** What the continuation of a settled operation does. *)
Lemma run_reaction_unfold (o : settlement) (w : world) :
  run_reaction o w
  = if mountedRef w then
      (Normal tt,
       set_state (state_of_settlement o)
         (log_delivered
            (match o with
             | Fulfilled d => action_resolved d
             | Rejected e => action_rejected e
             end) w))
    else (Normal tt, w).
Proof.
  destruct o; unfold run_reaction, run_onFulfilled, run_onRejected, dispatch;
    rewrite useSafeDispatch_unfold; destruct (mountedRef w); reflexivity.
Qed.

(** ** run *)

Lemma run_falsy (arg : value) (w : world) :
  truthy arg = false -> run arg w = (Normal tt, w).
Proof. intros H. unfold run. rewrite H. reflexivity. Qed.

Lemma run_promise (p : nat) (w : world) :
  run (VPromise p) w = (Normal tt, run_promise_effect p w).
Proof.
  unfold run, run_promise_effect. simpl. unfold bind at 1. unfold dispatch.
  rewrite useSafeDispatch_unfold.
  destruct (mountedRef w) eqn:Hm.
  - rewrite unsafeDispatch_pending. unfold promise_then, bind, gets, modify. simpl.
    destruct (settled w !! p); reflexivity.
  - unfold promise_then, bind, gets, modify.
    destruct (settled w !! p); reflexivity.
Qed.

(** A truthy value that is not a promise has no callable [then]: [run]
    throws, after the [pending] dispatch. *)
Lemma run_not_thenable (arg : value) (w : world) :
  optional_awaitable arg = false ->
  fst (run arg w) = Throw (new_TypeError "promise.then is not a function").
Proof.
  unfold optional_awaitable, run. intros H.
  destruct (truthy arg) eqn:Ht; simpl in H; [|discriminate]. simpl.
  unfold bind at 1. unfold dispatch. rewrite useSafeDispatch_unfold.
  destruct (mountedRef w).
  - rewrite unsafeDispatch_pending. destruct arg; try discriminate; reflexivity.
  - destruct arg; try discriminate; reflexivity.
Qed.

(** C7: [run] called with nothing, or with any other falsy value, returns
    normally and leaves the whole instance, its state included, as it
    was. *)
Theorem run_absent_is_noop (arg : value) (w : world) :
  truthy arg = false ->
  run arg w = (Normal tt, w)
  /\ step (CallRun arg) w = Some (Normal tt, w)
  /\ (state <$> exec [CallRun arg] w) = Some (state w).
Proof.
  intros H. simpl. rewrite (run_falsy _ _ H). auto.
Qed.

Lemma run_absent_is_noop_witness :
  let w := World Mounted true (AsyncState "resolved" (VNum 7) VNull) [] ∅ [] [] in
  run VUndefined w = (Normal tt, w)
  /\ step (CallRun VUndefined) w = Some (Normal tt, w)
  /\ (state <$> exec [CallRun VUndefined] w) = Some (state w).
Proof.
  intros w. apply (run_absent_is_noop VUndefined w). reflexivity.
Defined.

(** ** What an event can and cannot touch *)

Lemma run_frame (arg : value) (w w' : world) (c : completion unit) :
  run arg w = (c, w') ->
  phase w' = phase w /\ mountedRef w' = mountedRef w
  /\ (mountedRef w = false -> state w' = state w /\ delivered w' = delivered w).
Proof.
  unfold run. destruct (truthy arg); simpl.
  - unfold bind at 1. unfold dispatch. rewrite useSafeDispatch_unfold.
    destruct (mountedRef w) eqn:Hm.
    + rewrite unsafeDispatch_pending.
      destruct arg; simpl; unfold bind, gets, modify, throw; simpl;
        try (intros [= <- <-]; simpl; rewrite Hm; repeat split; discriminate).
      destruct (settled w !! id); intros [= <- <-]; simpl; rewrite Hm;
        repeat split; discriminate.
    + destruct arg; simpl; unfold bind, gets, modify, throw; simpl;
        try (intros [= <- <-]; simpl; rewrite Hm; repeat split; reflexivity).
      destruct (settled w !! id); intros [= <- <-]; simpl; rewrite Hm;
        repeat split; reflexivity.
  - unfold ret. intros [= <- <-]. repeat split; reflexivity.
Qed.

Lemma run_reaction_frame (o : settlement) (w w' : world) (c : completion unit) :
  run_reaction o w = (c, w') ->
  phase w' = phase w /\ mountedRef w' = mountedRef w
  /\ (mountedRef w = false -> w' = w).
Proof.
  rewrite run_reaction_unfold. destruct (mountedRef w) eqn:Hm;
    intros [= <- <-]; simpl; rewrite ?Hm; repeat split; try reflexivity; discriminate.
Qed.

(** While [mountedRef.current] is false and React does not run the layout
    effect, no event changes the stored state or reaches the reducer. *)
Lemma step_suppressed (e : event) (w w' : world) (c : completion unit) :
  mountedRef w = false -> e <> Mount ->
  step e w = Some (c, w') ->
  mountedRef w' = false /\ state w' = state w /\ delivered w' = delivered w.
Proof.
  intros Hm Hne Hs. destruct e; simpl in Hs.
  - contradiction.
  - destruct (phase w); inversion Hs; subst; simpl; auto.
  - inversion Hs as [Hr]. apply run_frame in Hr as (_ & Hm' & Hfr).
    destruct (Hfr Hm). rewrite Hm'. auto.
  - destruct (settled w !! p); inversion Hs; subst; simpl; auto.
  - destruct (jobs w) as [|o rest]; inversion Hs as [Hr].
    apply run_reaction_frame in Hr as (_ & _ & Hfr).
    rewrite (Hfr Hm). simpl. auto.
Qed.

(** Once unmounted, an instance is never mounted again. *)
Lemma step_Unmounted (e : event) (w w' : world) (c : completion unit) :
  phase w = Unmounted ->
  step e w = Some (c, w') ->
  phase w' = Unmounted /\ e <> Mount.
Proof.
  intros Hp Hs. destruct e; simpl in Hs.
  - rewrite Hp in Hs. discriminate.
  - rewrite Hp in Hs. discriminate.
  - inversion Hs as [Hr]. apply run_frame in Hr as (Hp' & _).
    split; [congruence | discriminate].
  - destruct (settled w !! p); inversion Hs; subst; simpl.
    split; [assumption | discriminate].
  - destruct (jobs w) as [|o rest]; inversion Hs as [Hr].
    apply run_reaction_frame in Hr as (Hp' & _). simpl in Hp'.
    split; [congruence | discriminate].
Qed.

Lemma exec_suppressed (tr : list event) (w w' : world) :
  mountedRef w = false -> ~ In Mount tr ->
  exec tr w = Some w' ->
  mountedRef w' = false /\ state w' = state w /\ delivered w' = delivered w.
Proof.
  revert w. induction tr as [|e tr IH]; intros w Hm Hnin Hex; simpl in Hex.
  - inversion Hex; subst. auto.
  - destruct (step e w) as [[c w1]|] eqn:Hs; [|discriminate].
    assert (He : e <> Mount) by (intros ->; apply Hnin; left; reflexivity).
    destruct (step_suppressed _ _ _ _ Hm He Hs) as (Hm1 & Hs1 & Hd1).
    destruct (IH w1 Hm1 (fun H => Hnin (or_intror H)) Hex) as (Hm' & Hs' & Hd').
    rewrite Hs', Hd'. auto.
Qed.

Lemma exec_Unmounted (tr : list event) (w w' : world) :
  phase w = Unmounted ->
  exec tr w = Some w' ->
  phase w' = Unmounted /\ ~ In Mount tr.
Proof.
  revert w. induction tr as [|e tr IH]; intros w Hp Hex; simpl in Hex.
  - inversion Hex; subst. auto.
  - destruct (step e w) as [[c w1]|] eqn:Hs; [|discriminate].
    destruct (step_Unmounted _ _ _ _ Hp Hs) as (Hp1 & He).
    destruct (IH w1 Hp1 Hex) as (Hp' & Hnin).
    split; [assumption|]. intros [Heq|Hin]; [congruence | contradiction].
Qed.

(** C1: when React runs the cleanup (detach) and any events follow -
    settlements of operations started before, microtasks delivering them,
    further calls of [run] - the stored state stays the state at
    detachment, nothing more is delivered to the reducer, the flag stays
    false, and the safe dispatcher over any raw dispatcher is a no-op. *)
Theorem detached_state_is_frozen
    (w0 wd w : world) (c : completion unit) (post : list event)
    (D : list value -> M unit) (args : list value) :
  step Unmount w0 = Some (c, wd) ->
  exec post wd = Some w ->
  mountedRef wd = false /\ state wd = state w0
  /\ state w = state wd /\ delivered w = delivered wd
  /\ mountedRef w = false /\ phase w = Unmounted
  /\ useSafeDispatch D args w = (Normal tt, w).
Proof.
  intros Hu Hex. simpl in Hu.
  destruct (phase w0); try discriminate. inversion Hu; subst; clear Hu.
  set (wd := set_mountedRef false (set_phase Unmounted w0)) in *.
  destruct (exec_Unmounted post wd w eq_refl Hex) as (Hp & Hnin).
  destruct (exec_suppressed post wd w eq_refl Hnin Hex) as (Hm & Hs & Hd).
  repeat split; try assumption.
  rewrite useSafeDispatch_unfold, Hm. reflexivity.
Qed.

Lemma detached_state_is_frozen_witness :
  let w0 := World Mounted true (AsyncState "pending" VNull VNull)
                  [action_pending] ∅ [0] [] in
  let wd := World Unmounted false (AsyncState "pending" VNull VNull)
                  [action_pending] ∅ [0] [] in
  let w := World Unmounted false (AsyncState "pending" VNull VNull)
                 [action_pending] {[ 0 := Fulfilled (VNum 42) ]} [] [] in
  exec [Mount; CallRun (VPromise 0)] (useAsync VUndefined) = Some w0
  /\ step Unmount w0 = Some (Normal tt, wd)
  /\ exec [Settle 0 (Fulfilled (VNum 42)); Microtask] wd = Some w
  /\ state w = state wd
  /\ useSafeDispatch unsafeDispatch [action_resolved (VNum 42)] w = (Normal tt, w).
Proof.
  intros w0 wd w.
  assert (Hu : step Unmount w0 = Some (Normal tt, wd)) by reflexivity.
  assert (Hex : exec [Settle 0 (Fulfilled (VNum 42)); Microtask] wd = Some w)
    by (vm_compute; reflexivity).
  split; [vm_compute; reflexivity|].
  split; [exact Hu|]. split; [exact Hex|].
  destruct (detached_state_is_frozen w0 wd w (Normal tt) _ unsafeDispatch
              [action_resolved (VNum 42)] Hu Hex)
    as (_ & _ & Hs & _ & _ & _ & Hd).
  split; [exact Hs | exact Hd].
Defined.

(** C10: the flag is false from the first render and stays false as long
    as React has not run the layout effect, so until then every dispatch
    through the safe dispatcher is a no-op and the state is still the
    initial one; the layout effect is what sets it to true. *)
Theorem dispatch_before_mount_is_noop
    (initialState : value) (tr : list event) (w : world)
    (D : list value -> M unit) (args : list value) :
  ~ In Mount tr ->
  exec tr (useAsync initialState) = Some w ->
  mountedRef (useAsync initialState) = false
  /\ mountedRef w = false
  /\ useSafeDispatch D args w = (Normal tt, w)
  /\ state w = state (useAsync initialState)
  /\ delivered w = []
  /\ (exists w1, step Mount (useAsync initialState) = Some (Normal tt, w1)
                 /\ mountedRef w1 = true).
Proof.
  intros Hnin Hex.
  destruct (exec_suppressed tr (useAsync initialState) w eq_refl Hnin Hex)
    as (Hm & Hs & Hd).
  repeat split; try assumption.
  - rewrite useSafeDispatch_unfold, Hm. reflexivity.
  - eexists. split; reflexivity.
Qed.

Lemma dispatch_before_mount_is_noop_witness :
  let w := World Rendered false (AsyncState "idle" VNull VNull) [] ∅ [0] [] in
  exec [CallRun (VPromise 0)] (useAsync VUndefined) = Some w
  /\ useSafeDispatch unsafeDispatch [action_pending] w = (Normal tt, w)
  /\ state w = AsyncState "idle" VNull VNull.
Proof.
  intros w.
  assert (Hex : exec [CallRun (VPromise 0)] (useAsync VUndefined) = Some w)
    by (vm_compute; reflexivity).
  assert (Hnin : ~ In Mount [CallRun (VPromise 0)])
    by (intros [H|[]]; discriminate).
  destruct (dispatch_before_mount_is_noop VUndefined _ w unsafeDispatch
              [action_pending] Hnin Hex) as (_ & _ & Hd & Hs & _).
  split; [exact Hex|]. split; [exact Hd|]. rewrite Hs. vm_compute. reflexivity.
Defined.

(** ** Failure of the operation *)

Lemma settle_fires_registered (p : nat) (o : settlement) (r : list nat) :
  exists rest,
    List.map (fun _ : nat => o) (List.filter (Nat.eqb p) (r ++ [p])) = o :: rest.
Proof.
  rewrite List.filter_app. simpl. rewrite Nat.eqb_refl.
  rewrite List.map_app. simpl.
  destruct (List.map (fun _ : nat => o) (List.filter (Nat.eqb p) r)) as [|x l] eqn:E.
  - exists []. reflexivity.
  - exists (l ++ [o]). simpl. f_equal.
    destruct (List.filter (Nat.eqb p) r); simpl in E; inversion E. reflexivity.
Qed.

(** C6, as the code has it: on nothing or on a promise, [run] returns
    normally: it does nothing at all on a falsy argument, and on a promise it dispatches
    [pending] and registers its continuations (queues them when the
    promise has already settled).  A failing operation is not thrown by
    anything: the rejection continuation returns normally, and on a mounted
    instance the rejection of a promise given to [run] ends in the state
    [{status: rejected, data: null, error}]. *)
Theorem run_never_throws (arg : value) (w : world) :
  optional_awaitable arg = true ->
  fst (run arg w) = Normal tt
  /\ (truthy arg = false -> snd (run arg w) = w)
  /\ (forall p, arg = VPromise p -> snd (run arg w) = run_promise_effect p w)
  /\ (forall error w0,
        fst (run_onRejected error w0) = Normal tt
        /\ (mountedRef w0 = true ->
            state (snd (run_onRejected error w0)) = AsyncState "rejected" VNull error))
  /\ (forall p error,
        arg = VPromise p -> mountedRef w = true ->
        settled w !! p = None -> jobs w = [] ->
        exists w1 w2 w3,
          step (CallRun arg) w = Some (Normal tt, w1)
          /\ step (Settle p (Rejected error)) w1 = Some (Normal tt, w2)
          /\ step Microtask w2 = Some (Normal tt, w3)
          /\ state w3 = AsyncState "rejected" VNull error).
Proof.
  intros Hok.
  assert (Hcases : truthy arg = false \/ exists p, arg = VPromise p).
  { unfold optional_awaitable in Hok. destruct (truthy arg); [right|left; reflexivity].
    destruct arg; try discriminate. eauto. }
  split; [|split; [|split; [|split]]].
  - destruct Hcases as [Hf|[p ->]].
    + rewrite (run_falsy _ _ Hf). reflexivity.
    + rewrite run_promise. reflexivity.
  - intros Hf. rewrite (run_falsy _ _ Hf). reflexivity.
  - intros p ->. rewrite run_promise. reflexivity.
  - intros error w0. change (run_onRejected error) with (run_reaction (Rejected error)).
    rewrite run_reaction_unfold. destruct (mountedRef w0); split; try reflexivity.
    discriminate.
  - intros p error -> Hm Hp Hj.
    exists (run_promise_effect p w). simpl. rewrite run_promise.
    unfold run_promise_effect. rewrite Hm, Hp. simpl. rewrite Hp.
    destruct (settle_fires_registered p (Rejected error) (reactions w)) as [rest Hr].
    unfold settle. simpl. rewrite Hj, Hr. simpl.
    eexists. eexists. split; [reflexivity|]. split; [reflexivity|].
    cbn [jobs]. rewrite run_reaction_unfold. cbn [mountedRef set_jobs].
    rewrite Hm. split; reflexivity.
Qed.

Lemma run_never_throws_witness :
  let w := World Mounted true (AsyncState "idle" VNull VNull) [] ∅ [] [] in
  fst (run (VPromise 0) w) = Normal tt
  /\ exists w1 w2 w3,
       step (CallRun (VPromise 0)) w = Some (Normal tt, w1)
       /\ step (Settle 0 (Rejected (VStr "boom"))) w1 = Some (Normal tt, w2)
       /\ step Microtask w2 = Some (Normal tt, w3)
       /\ state w3 = AsyncState "rejected" VNull (VStr "boom").
Proof.
  intros w.
  destruct (run_never_throws (VPromise 0) w eq_refl) as (Hn & _ & _ & _ & Hfail).
  split; [exact Hn|].
  apply (Hfail 0 (VStr "boom")); reflexivity.
Defined.

(** C6 as stated, for every input, fails on a truthy input that is not a
    promise: [run(42)] on a mounted instance dispatches [pending] and then
    throws, synchronously, the [TypeError] of [promise.then]. *)
Lemma run_throws_on_a_number_counterexample :
  run (VNum 42) (World Mounted true (AsyncState "idle" VNull VNull) [] ∅ [] [])
  = (Throw (new_TypeError "promise.then is not a function"),
     World Mounted true (AsyncState "pending" VNull VNull) [action_pending] ∅ [] []).
Proof. vm_compute. reflexivity. Qed.

(** ** The invariant along a run of the instance *)

Lemma AsyncState_invariant_pending : AsyncState_invariant (AsyncState "pending" VNull VNull).
Proof. split; simpl; discriminate. Qed.

(** An operation may settle with [null]: the state is then [resolved] (or
    [rejected]) with both fields null. *)
Example resolved_with_null (current : obj) :
  asyncReducer current (action_resolved VNull)
  = Normal (AsyncState "resolved" VNull VNull).
Proof. reflexivity. Qed.

Lemma AsyncState_invariant_settlement (o : settlement) :
  AsyncState_invariant (state_of_settlement o).
Proof.
  destruct o; split; rewrite ?AsyncState_data, ?AsyncState_error, ?AsyncState_status;
    simpl; try discriminate; reflexivity.
Qed.

Lemma asyncReducer_establishes_invariant (current next : obj) (action : value) :
  asyncReducer current action = Normal next -> AsyncState_invariant next.
Proof.
  unfold asyncReducer. destruct (read_prop action "type") as [ty|]; [|discriminate].
  destruct (strict_eq_str ty "pending").
  { intros [= <-]. apply AsyncState_invariant_pending. }
  destruct (strict_eq_str ty "resolved").
  { destruct (read_prop action "data") as [d|]; [|discriminate].
    intros [= <-]. apply (AsyncState_invariant_settlement (Fulfilled d)). }
  destruct (strict_eq_str ty "rejected"); [|discriminate].
  destruct (read_prop action "error") as [e|]; [|discriminate].
  intros [= <-]. apply (AsyncState_invariant_settlement (Rejected e)).
Qed.

Lemma step_state (e : event) (w w' : world) (c : completion unit) :
  step e w = Some (c, w') ->
  state w' = state w
  \/ state w' = AsyncState "pending" VNull VNull
  \/ exists o, state w' = state_of_settlement o.
Proof.
  intros Hs. destruct e; simpl in Hs.
  - destruct (phase w); inversion Hs; subst; simpl; auto.
  - destruct (phase w); inversion Hs; subst; simpl; auto.
  - inversion Hs as [Hr]. clear Hs. unfold run in Hr.
    destruct (truthy arg); simpl in Hr.
    + unfold bind at 1 in Hr. unfold dispatch in Hr.
      rewrite useSafeDispatch_unfold in Hr.
      destruct (mountedRef w); [rewrite unsafeDispatch_pending in Hr|];
        (destruct arg; simpl in Hr; unfold bind, gets, modify, throw in Hr;
         simpl in Hr;
         [inversion Hr; subst; simpl; auto .. |
          destruct (settled w !! id); inversion Hr; subst; simpl; auto]).
    + inversion Hr; subst. auto.
  - destruct (settled w !! p); inversion Hs; subst; simpl; auto.
  - destruct (jobs w) as [|o rest]; inversion Hs as [Hr].
    rewrite run_reaction_unfold in Hr. simpl in Hr.
    destruct (mountedRef w); inversion Hr; subst; simpl; eauto.
Qed.

Lemma exec_invariant (tr : list event) (w w' : world) :
  AsyncState_invariant (state w) ->
  exec tr w = Some w' ->
  AsyncState_invariant (state w').
Proof.
  revert w. induction tr as [|e tr IH]; intros w Hinv Hex; simpl in Hex.
  - inversion Hex; subst. assumption.
  - destruct (step e w) as [[c w1]|] eqn:Hs; [|discriminate].
    apply (IH w1); [|assumption].
    destruct (step_state _ _ _ _ Hs) as [->|[->|[o ->]]].
    + assumption.
    + apply AsyncState_invariant_pending.
    + apply AsyncState_invariant_settlement.
Qed.

(** C4, as the code has it: the state of a controller built with no
    override, every state the reducer returns, and every state held along
    any run of a controller whose initial state satisfies it, has [data]
    non-null only in [resolved] and [error] non-null only in [rejected]
    (so both are null in [idle] and [pending]).  An override is merged in
    as given and is not covered. *)
Theorem AsyncState_invariant_preserved
    (initialState : value) (tr : list event) (w : world) :
  AsyncState_invariant (state (useAsync initialState)) ->
  exec tr (useAsync initialState) = Some w ->
  AsyncState_invariant (state w)
  /\ AsyncState_invariant (state (useAsync VUndefined))
  /\ (forall current action next,
        asyncReducer current action = Normal next -> AsyncState_invariant next).
Proof.
  intros Hinit Hex. split; [|split].
  - exact (exec_invariant tr _ w Hinit Hex).
  - split; simpl; discriminate.
  - intros current action next. apply asyncReducer_establishes_invariant.
Qed.

Lemma AsyncState_invariant_preserved_witness :
  AsyncState_invariant (AsyncState "resolved" (VNum 42) VNull).
Proof.
  assert (Hinit : AsyncState_invariant
                    (state (useAsync (VObject {[ "status" := VStr "pending" ]}))))
    by (split; simpl; discriminate).
  assert (Hex : exec [Mount; CallRun (VPromise 0); Settle 0 (Fulfilled (VNum 42)); Microtask]
                     (useAsync (VObject {[ "status" := VStr "pending" ]}))
                = Some (World Mounted true (AsyncState "resolved" (VNum 42) VNull)
                              [action_pending; action_resolved (VNum 42)]
                              {[ 0 := Fulfilled (VNum 42) ]} [] []))
    by (vm_compute; reflexivity).
  exact (proj1 (AsyncState_invariant_preserved _ _ _ Hinit Hex)).
Defined.

(** C4 as stated fails on an override: [useAsync({data: 1})] holds a
    state whose status is [idle] and whose [data] is not null. *)
Lemma AsyncState_invariant_override_counterexample :
  let held := state (useAsync (VObject {[ "data" := VNum 1 ]})) in
  get_prop held "status" = VStr "idle"
  /\ get_prop held "data" = VNum 1
  /\ ~ AsyncState_invariant held.
Proof.
  intros held. split; [reflexivity|]. split; [reflexivity|].
  intros [Hdata _]. specialize (Hdata eq_refl). discriminate Hdata.
Qed.

(** ** Overlapping calls of run *)

Lemma asyncReducer_second_transition_wins (s s1 : obj) (a1 a2 : value) :
  asyncReducer s a1 = Normal s1 -> asyncReducer s1 a2 = asyncReducer s a2.
Proof. intros _. apply asyncReducer_ignores_state. Qed.

Ltac race_steps :=
  cbn [exec step]; rewrite !run_promise;
  repeat (unfold run_promise_effect, settle;
          cbn -[AsyncState action_pending action_resolved action_rejected
                state_of_settlement run_reaction];
          rewrite ?Nat.eqb_refl, ?run_reaction_unfold;
          repeat match goal with
                 | H : _ = false |- _ => rewrite H
                 | H : _ = None |- _ => rewrite H
                 end);
  reflexivity.

(** C5: two calls of [run] overlap on a mounted instance.  Whichever
    operation settles last decides the final state, whichever call issued
    it: when the first call's operation settles after the second's, the
    final state is the first call's result.  In the reducer, a transition
    followed by a second one gives what the second one alone gives, and on
    a mounted instance the state after a delivery is the state of the
    settlement delivered, whatever the state before. *)
Theorem last_settled_wins (w : world) (p1 p2 : nat) (o1 o2 : settlement) :
  mountedRef w = true -> reactions w = [] -> jobs w = [] ->
  settled w !! p1 = None -> settled w !! p2 = None -> p1 <> p2 ->
  (state <$> exec [CallRun (VPromise p1); CallRun (VPromise p2);
                   Settle p2 o2; Microtask; Settle p1 o1; Microtask] w)
    = Some (state_of_settlement o1)
  /\ (state <$> exec [CallRun (VPromise p1); CallRun (VPromise p2);
                      Settle p2 o2; Settle p1 o1; Microtask; Microtask] w)
    = Some (state_of_settlement o1)
  /\ (state <$> exec [CallRun (VPromise p1); CallRun (VPromise p2);
                      Settle p1 o1; Microtask; Settle p2 o2; Microtask] w)
    = Some (state_of_settlement o2)
  /\ (forall s s1 a1 a2,
        asyncReducer s a1 = Normal s1 -> asyncReducer s1 a2 = asyncReducer s a2)
  /\ (forall (v : world) (o : settlement) (rest : list settlement),
        mountedRef v = true -> jobs v = o :: rest ->
        exists v', step Microtask v = Some (Normal tt, v')
                   /\ state v' = state_of_settlement o).
Proof.
  intros Hm Hr Hj H1 H2 Hne.
  assert (E12 : (p1 =? p2)%nat = false) by (apply Nat.eqb_neq; assumption).
  assert (E21 : (p2 =? p1)%nat = false) by (apply Nat.eqb_neq; auto).
  destruct w as [ph m st dl t r j]. simpl in Hm, Hr, Hj, H1, H2. subst m r j.
  assert (L12 : <[p2:=o2]> t !! p1 = None) by (rewrite lookup_insert_ne; auto).
  assert (L21 : <[p1:=o1]> t !! p2 = None) by (rewrite lookup_insert_ne; auto).
  split; [|split; [|split; [|split]]].
  - race_steps.
  - race_steps.
  - race_steps.
  - intros s s1 a1 a2. apply asyncReducer_second_transition_wins.
  - intros v o rest Hv Hjobs. cbn [step]. rewrite Hjobs, run_reaction_unfold.
    cbn [mountedRef set_jobs]. rewrite Hv. eexists. split; reflexivity.
Qed.

Lemma last_settled_wins_witness :
  (state <$> exec [CallRun (VPromise 0); CallRun (VPromise 1);
                   Settle 1 (Fulfilled (VStr "second")); Microtask;
                   Settle 0 (Fulfilled (VStr "first")); Microtask]
                  (World Mounted true (AsyncState "idle" VNull VNull) [] ∅ [] []))
  = Some (AsyncState "resolved" (VStr "first") VNull).
Proof.
  apply (last_settled_wins
           (World Mounted true (AsyncState "idle" VNull VNull) [] ∅ [] [])
           0 1 (Fulfilled (VStr "first")) (Fulfilled (VStr "second")));
    [reflexivity | reflexivity | reflexivity | reflexivity | reflexivity | lia].
Defined.


(** * Beyond the specification's sentences *)

(** ** The flag and the lifecycle *)

Lemma step_flag (e : event) (w w' : world) (c : completion unit) :
  mountedRef w = match phase w with Mounted => true | _ => false end ->
  step e w = Some (c, w') ->
  mountedRef w' = match phase w' with Mounted => true | _ => false end.
Proof.
  intros Hinv Hs. destruct e; simpl in Hs.
  - destruct (phase w); inversion Hs; subst; reflexivity.
  - destruct (phase w); inversion Hs; subst; reflexivity.
  - inversion Hs as [Hr]. apply run_frame in Hr as (Hp & Hm & _).
    rewrite Hp, Hm. assumption.
  - destruct (settled w !! p); inversion Hs; subst; simpl. assumption.
  - destruct (jobs w) as [|o rest]; inversion Hs as [Hr].
    apply run_reaction_frame in Hr as (Hp & Hm & _). simpl in Hp, Hm.
    rewrite Hp, Hm. assumption.
Qed.

(** X1: along every run of an instance, [mountedRef.current] is true
    exactly while the instance is mounted. *)
Theorem mountedRef_tracks_lifecycle
    (initialState : value) (tr : list event) (w : world) :
  exec tr (useAsync initialState) = Some w ->
  mountedRef w = match phase w with Mounted => true | _ => false end.
Proof.
  assert (Hgen : forall tr0 w0,
             mountedRef w0 = match phase w0 with Mounted => true | _ => false end ->
             exec tr0 w0 = Some w ->
             mountedRef w = match phase w with Mounted => true | _ => false end).
  { induction tr0 as [|e tr0 IH]; intros w0 Hinv Hex; simpl in Hex.
    - inversion Hex; subst. assumption.
    - destruct (step e w0) as [[c w1]|] eqn:Hs; [|discriminate].
      apply (IH w1); [|assumption]. exact (step_flag _ _ _ _ Hinv Hs). }
  apply Hgen. reflexivity.
Qed.

Lemma mountedRef_tracks_lifecycle_witness :
  let w := World Unmounted false (AsyncState "pending" VNull VNull)
                 [action_pending] ∅ [0] [] in
  mountedRef w = match phase w with Mounted => true | _ => false end.
Proof.
  intros w.
  apply (mountedRef_tracks_lifecycle VUndefined [Mount; CallRun (VPromise 0); Unmount] w).
  vm_compute. reflexivity.
Defined.

(** ** Nothing throws but a call of run on a non-thenable *)

(** X2: in any world, an event other than a call of [run] on a truthy
    non-promise returns normally: the reducer's error for an unhandled
    action cannot be reached through [run] and its continuations. *)
Theorem step_completes_normally (e : event) (w w' : world) (c : completion unit) :
  (forall arg, e = CallRun arg -> optional_awaitable arg = true) ->
  step e w = Some (c, w') ->
  c = Normal tt.
Proof.
  intros Harg Hs. destruct e; simpl in Hs.
  - destruct (phase w); inversion Hs; reflexivity.
  - destruct (phase w); inversion Hs; reflexivity.
  - specialize (Harg arg eq_refl). unfold optional_awaitable in Harg.
    destruct (truthy arg) eqn:Ht.
    + destruct arg; try discriminate. rewrite run_promise in Hs.
      inversion Hs. reflexivity.
    + rewrite (run_falsy _ _ Ht) in Hs. inversion Hs. reflexivity.
  - destruct (settled w !! p); inversion Hs; reflexivity.
  - destruct (jobs w) as [|o rest]; [discriminate|].
    rewrite run_reaction_unfold in Hs.
    destruct (mountedRef (set_jobs rest w)); inversion Hs; reflexivity.
Qed.

Lemma step_completes_normally_witness :
  exists w',
    step Microtask (World Mounted true (AsyncState "pending" VNull VNull)
                          [action_pending] {[ 0 := Rejected (VStr "boom") ]} []
                          [Rejected (VStr "boom")])
    = Some (Normal tt, w').
Proof.
  destruct (step Microtask (World Mounted true (AsyncState "pending" VNull VNull)
                                  [action_pending] {[ 0 := Rejected (VStr "boom") ]} []
                                  [Rejected (VStr "boom")]))
    as [[c w']|] eqn:Hs; [|discriminate].
  exists w'.
  rewrite (step_completes_normally Microtask _ w' c
             (fun arg H => ltac:(discriminate H)) Hs).
  reflexivity.
Defined.

(** X3: [run] on a truthy value that is not a promise throws the
    [TypeError] of the call of [then], and only after the [pending]
    dispatch: a mounted instance is left in [pending]. *)
Theorem run_non_thenable_throws_after_pending (arg : value) (w : world) :
  optional_awaitable arg = false ->
  run arg w
  = (Throw (new_TypeError "promise.then is not a function"),
     if mountedRef w
     then set_state (AsyncState "pending" VNull VNull) (log_delivered action_pending w)
     else w).
Proof.
  unfold optional_awaitable, run. intros H.
  destruct (truthy arg) eqn:Ht; simpl in H; [|discriminate]. simpl.
  unfold bind at 1. unfold dispatch. rewrite useSafeDispatch_unfold.
  destruct (mountedRef w).
  - rewrite unsafeDispatch_pending. destruct arg; try discriminate; reflexivity.
  - destruct arg; try discriminate; reflexivity.
Qed.

Lemma run_non_thenable_throws_after_pending_witness :
  let w := World Mounted true (AsyncState "idle" VNull VNull) [] ∅ [] [] in
  run (VNum 42) w
  = (Throw (new_TypeError "promise.then is not a function"),
     World Mounted true (AsyncState "pending" VNull VNull) [action_pending] ∅ [] []).
Proof.
  intros w. apply (run_non_thenable_throws_after_pending (VNum 42) w). reflexivity.
Defined.

(** ** The state and the actions delivered *)

Lemma run_action_reduces (a : value) :
  run_action a -> exists s, forall current : obj, asyncReducer current a = Normal s.
Proof.
  intros [->|[[d ->]|[e ->]]]; eexists; intros current; reflexivity.
Qed.

Lemma step_delivery (e : event) (w w' : world) (c : completion unit) :
  step e w = Some (c, w') ->
  (state w' = state w /\ delivered w' = delivered w)
  \/ (exists a, run_action a /\ delivered w' = delivered w ++ [a]
                /\ forall current : obj, asyncReducer current a = Normal (state w')).
Proof.
  intros Hs. destruct e; simpl in Hs.
  - destruct (phase w); inversion Hs; subst; simpl; auto.
  - destruct (phase w); inversion Hs; subst; simpl; auto.
  - inversion Hs as [Hr]. clear Hs. unfold run in Hr.
    destruct (truthy arg); simpl in Hr.
    + unfold bind at 1 in Hr. unfold dispatch in Hr.
      rewrite useSafeDispatch_unfold in Hr.
      destruct (mountedRef w); [rewrite unsafeDispatch_pending in Hr|].
      * right. exists action_pending. unfold run_action.
        destruct arg; simpl in Hr; unfold bind, gets, modify, throw in Hr;
          simpl in Hr;
          [inversion Hr; subst; simpl; auto .. |
           destruct (settled w !! id); inversion Hr; subst; simpl; auto].
      * left.
        destruct arg; simpl in Hr; unfold bind, gets, modify, throw in Hr;
          simpl in Hr;
          [inversion Hr; subst; simpl; auto .. |
           destruct (settled w !! id); inversion Hr; subst; simpl; auto].
    + inversion Hr; subst. auto.
  - destruct (settled w !! p); inversion Hs; subst; simpl; auto.
  - destruct (jobs w) as [|o rest]; inversion Hs as [Hr].
    rewrite run_reaction_unfold in Hr. simpl in Hr.
    destruct (mountedRef w); inversion Hr; subst; simpl; auto.
    right. destruct o as [d|err].
    + exists (action_resolved d). unfold run_action. eauto 6.
    + exists (action_rejected err). unfold run_action. eauto 6.
Qed.

(** X4: along every run of an instance, the raw dispatch has only ever
    been given the three actions of [run], and the stored state is the
    initial state while nothing has been delivered, afterwards what the
    reducer returns for the last action delivered. *)
Theorem state_follows_last_delivered
    (initialState : value) (tr : list event) (w : world) :
  exec tr (useAsync initialState) = Some w ->
  Forall run_action (delivered w)
  /\ match last (delivered w) with
     | None => state w = useAsync_initialState initialState
     | Some a => forall current : obj, asyncReducer current a = Normal (state w)
     end.
Proof.
  set (Inv := fun v : world =>
         Forall run_action (delivered v)
         /\ match last (delivered v) with
            | None => state v = useAsync_initialState initialState
            | Some a => forall current : obj, asyncReducer current a = Normal (state v)
            end).
  assert (Hgen : forall tr0 w0, Inv w0 -> exec tr0 w0 = Some w -> Inv w).
  { induction tr0 as [|e tr0 IH]; intros w0 Hinv Hex; simpl in Hex.
    - inversion Hex; subst. assumption.
    - destruct (step e w0) as [[c w1]|] eqn:Hs; [|discriminate].
      apply (IH w1); [|assumption].
      destruct (step_delivery _ _ _ _ Hs) as [[Hst Hd]|[a (Ha & Hd & Hred)]].
      + unfold Inv. rewrite Hst, Hd. exact Hinv.
      + destruct Hinv as [Hall _]. split.
        * rewrite Hd. apply Forall_app. split; [assumption|]. constructor; [assumption|constructor].
        * rewrite Hd, last_snoc. assumption. }
  intros Hex. apply (Hgen tr (useAsync initialState)); [|assumption].
  split; [constructor | reflexivity].
Qed.

Lemma state_follows_last_delivered_witness :
  asyncReducer (AsyncState "pending" VNull VNull) (action_resolved (VNum 42))
  = Normal (AsyncState "resolved" (VNum 42) VNull).
Proof.
  pose (w := World Mounted true (AsyncState "resolved" (VNum 42) VNull)
                   [action_pending; action_resolved (VNum 42)]
                   {[ 0 := Fulfilled (VNum 42) ]} [] []).
  assert (Hex : exec [Mount; CallRun (VPromise 0); Settle 0 (Fulfilled (VNum 42)); Microtask]
                     (useAsync (VObject {[ "extra" := VNum 1 ]})) = Some w)
    by (vm_compute; reflexivity).
  exact (proj2 (state_follows_last_delivered _ _ w Hex)
               (AsyncState "pending" VNull VNull)).
Defined.

(** ** The status *)

Lemma known_status_AsyncState (d e : value) :
  known_status (AsyncState "pending" d e) = true
  /\ known_status (AsyncState "resolved" d e) = true
  /\ known_status (AsyncState "rejected" d e) = true.
Proof. repeat split. Qed.

Lemma exec_known_status (tr : list event) (w0 w1 : world) :
  known_status (state w0) = true ->
  exec tr w0 = Some w1 ->
  known_status (state w1) = true.
Proof.
  revert w0. induction tr as [|e tr IH]; intros w0 Hk Hex; simpl in Hex.
  - inversion Hex; subst. assumption.
  - destruct (step e w0) as [[c w2]|] eqn:Hs; [|discriminate].
    apply (IH w2); [|assumption].
    destruct (step_state _ _ _ _ Hs) as [->|[->|[o ->]]].
    + assumption.
    + reflexivity.
    + destruct o; reflexivity.
Qed.

(** X5: when the initial status is one of [idle], [pending], [resolved],
    [rejected], so is the status of every state the instance ever holds. *)
Theorem status_stays_known
    (initialState : value) (tr : list event) (w : world) :
  known_status (state (useAsync initialState)) = true ->
  exec tr (useAsync initialState) = Some w ->
  known_status (state w) = true.
Proof. apply exec_known_status. Qed.

Lemma status_stays_known_witness :
  known_status (AsyncState "rejected" VNull (VStr "boom")) = true.
Proof.
  pose (w := World Mounted true (AsyncState "rejected" VNull (VStr "boom"))
                   [action_pending; action_rejected (VStr "boom")]
                   {[ 0 := Rejected (VStr "boom") ]} [] []).
  assert (Hex : exec [Mount; CallRun (VPromise 0); Settle 0 (Rejected (VStr "boom")); Microtask]
                     (useAsync VUndefined) = Some w)
    by (vm_compute; reflexivity).
  exact (status_stays_known VUndefined _ w eq_refl Hex).
Defined.

(** ** An override that is not an object *)

Lemma string_of_nat_starts_with_digit (i : nat) :
  exists c rest, string_of_nat i = String c rest
                 /\ (48 <=? nat_of_ascii c)%nat && (nat_of_ascii c <=? 57)%nat = true.
Proof.
  unfold string_of_nat, NilZero.string_of_uint.
  destruct (Nat.to_uint i); simpl; eexists; eexists; split; reflexivity.
Qed.

Lemma string_props_no_letter_key (s : string) (i : nat) (k : string) :
  (forall c rest, k = String c rest ->
                  (48 <=? nat_of_ascii c)%nat && (nat_of_ascii c <=? 57)%nat = false) ->
  string_props i s !! k = None.
Proof.
  intros Hk. revert i. induction s as [|ch s IH]; intros i; simpl.
  - apply lookup_empty.
  - rewrite lookup_insert_ne; [apply IH|].
    intros Heq. destruct (string_of_nat_starts_with_digit i) as (c & rest & Hc & Hd).
    rewrite Hc in Heq. symmetry in Heq. rewrite (Hk c rest Heq) in Hd. discriminate.
Qed.

(** X6: an override that is not an object does not override: with
    [undefined], [null], a boolean, a number, an [Error] or a promise the
    controller starts in exactly [{status: idle, data: null, error: null}],
    and with a string (say ['pending'] instead of [{status: 'pending'}])
    its status, data and error are still those. *)
Theorem useAsync_non_object_override (initialState : value) :
  (forall fields, initialState <> VObject fields) ->
  get_prop (state (useAsync initialState)) "status" = VStr "idle"
  /\ get_prop (state (useAsync initialState)) "data" = VNull
  /\ get_prop (state (useAsync initialState)) "error" = VNull
  /\ ((forall s, initialState <> VStr s) ->
      state (useAsync initialState) = AsyncState "idle" VNull VNull).
Proof.
  intros Hobj. simpl.
  destruct initialState as [| |b|n|s|nm msg|fields|p];
    try (repeat split; intros; unfold useAsync_initialState; simpl;
         rewrite ?(left_id_L ∅ (∪)); reflexivity).
  - unfold get_prop. rewrite !useAsync_initialState_lookup. simpl.
    rewrite !string_props_no_letter_key
      by (intros c rest [= <- _]; reflexivity).
    repeat split. intros Hs. exfalso. exact (Hs s eq_refl).
  - exfalso. exact (Hobj fields eq_refl).
Qed.

Lemma useAsync_non_object_override_witness :
  get_prop (state (useAsync (VStr "pending"))) "status" = VStr "idle".
Proof.
  apply (useAsync_non_object_override (VStr "pending")).
  intros fields H. discriminate H.
Defined.

(** ** PokemonInfo *)

Lemma known_status_cases (s : obj) :
  known_status s = true ->
  get_prop s "status" = VStr "idle" \/ get_prop s "status" = VStr "pending"
  \/ get_prop s "status" = VStr "resolved" \/ get_prop s "status" = VStr "rejected".
Proof.
  unfold known_status. intros H.
  repeat (apply orb_prop in H; destruct H as [H|H]);
    apply strict_eq_str_true in H; auto.
Qed.

Lemma PokemonInfo_initialState_known (pokemonName : value) :
  known_status (state (useAsync (PokemonInfo_initialState pokemonName))) = true.
Proof.
  unfold PokemonInfo_initialState. destruct (truthy pokemonName); reflexivity.
Qed.

Lemma status_known_along (firstName : value) (tr : list event) (w : world) :
  exec tr (useAsync (PokemonInfo_initialState firstName)) = Some w ->
  known_status (state w) = true.
Proof. apply exec_known_status. apply PokemonInfo_initialState_known. Qed.

(** X7: whatever happened to its controller, the only thing
    [PokemonInfo] ever throws is the stored error of a [rejected] state,
    and only while it has a name: the final
    [throw new Error('This should be impossible')] is never reached. *)
Theorem PokemonInfo_throws_only_the_rejection
    (firstName pokemonName : value) (tr : list event) (w : world) (e : value) :
  exec tr (useAsync (PokemonInfo_initialState firstName)) = Some w ->
  PokemonInfo pokemonName w = Throw e ->
  truthy pokemonName = true
  /\ get_prop (state w) "status" = VStr "rejected"
  /\ e = get_prop (state w) "error".
Proof.
  intros Hex Hthrow.
  pose proof (status_known_along firstName tr w Hex) as Hk.
  unfold PokemonInfo in Hthrow.
  destruct (known_status_cases _ Hk) as [Hs|[Hs|[Hs|Hs]]]; rewrite Hs in Hthrow;
    simpl in Hthrow; destruct (truthy pokemonName); simpl in Hthrow;
    try discriminate.
  inversion Hthrow. auto.
Qed.

Lemma PokemonInfo_throws_only_the_rejection_witness :
  let w := World Mounted true (AsyncState "rejected" VNull (VStr "boom"))
                 [action_pending; action_rejected (VStr "boom")]
                 {[ 0 := Rejected (VStr "boom") ]} [] [] in
  PokemonInfo (VStr "pikachu") w = Throw (VStr "boom")
  /\ get_prop (state w) "status" = VStr "rejected".
Proof.
  intros w.
  assert (Hex : exec [Mount; CallRun (VPromise 0); Settle 0 (Rejected (VStr "boom"));
                      Microtask]
                     (useAsync (PokemonInfo_initialState (VStr "pikachu"))) = Some w)
    by (vm_compute; reflexivity).
  assert (Hthrow : PokemonInfo (VStr "pikachu") w = Throw (VStr "boom"))
    by (vm_compute; reflexivity).
  split; [exact Hthrow|].
  exact (proj1 (proj2 (PokemonInfo_throws_only_the_rejection
                         (VStr "pikachu") (VStr "pikachu") _ w _ Hex Hthrow))).
Defined.

(** X8: what a mounted [PokemonInfo] with a name shows around a fetch.
    Its effect starts the fetch and the fallback is shown; it is still
    shown when the promise has settled and the continuation has not run
    yet; once it has run, the data view of the result is shown, or the
    rejection is thrown to the error boundary. *)
Theorem PokemonInfo_shows_the_fetch
    (fetchPokemon : value -> value) (pokemonName : value)
    (p : nat) (o : settlement) (w : world) :
  truthy pokemonName = true ->
  fetchPokemon pokemonName = VPromise p ->
  mountedRef w = true -> settled w !! p = None -> jobs w = [] ->
  exists w1 w2 w3,
    PokemonInfo_effect fetchPokemon pokemonName w = (Normal tt, w1)
    /\ PokemonInfo pokemonName w1 = Normal (PokemonInfoFallback pokemonName)
    /\ step (Settle p o) w1 = Some (Normal tt, w2)
    /\ PokemonInfo pokemonName w2 = Normal (PokemonInfoFallback pokemonName)
    /\ step Microtask w2 = Some (Normal tt, w3)
    /\ PokemonInfo pokemonName w3
       = match o with
         | Fulfilled data => Normal (PokemonDataView data)
         | Rejected error => Throw error
         end.
Proof.
  intros Hname Hfetch Hm Hp Hj.
  assert (He : PokemonInfo_effect fetchPokemon pokemonName w
               = (Normal tt, run_promise_effect p w)).
  { unfold PokemonInfo_effect. rewrite Hname, Hfetch. simpl. apply run_promise. }
  destruct (settle_fires_registered p o (reactions w)) as [rest Hr].
  rewrite He. unfold run_promise_effect. rewrite Hm, Hp.
  eexists. eexists. eexists. split; [reflexivity|].
  split; [unfold PokemonInfo; simpl; rewrite Hname; reflexivity|].
  cbn [step settled set_reactions set_state log_delivered]. rewrite Hp.
  split; [reflexivity|].
  split; [unfold PokemonInfo; simpl; rewrite Hname; reflexivity|].
  unfold settle.
  cbn [step jobs reactions set_reactions set_state log_delivered].
  rewrite Hj, Hr. cbn [app]. rewrite run_reaction_unfold.
  cbn [mountedRef set_jobs set_reactions set_state log_delivered]. rewrite Hm.
  split; [reflexivity|].
  unfold PokemonInfo. destruct o; simpl; rewrite Hname; reflexivity.
Qed.

Lemma PokemonInfo_shows_the_fetch_witness :
  exists w1 w2 w3,
    PokemonInfo_effect (fun _ => VPromise 0) (VStr "pikachu")
      (World Mounted true (AsyncState "idle" VNull VNull) [] ∅ [] [])
    = (Normal tt, w1)
    /\ PokemonInfo (VStr "pikachu") w1 = Normal (PokemonInfoFallback (VStr "pikachu"))
    /\ step (Settle 0 (Fulfilled (VStr "electric"))) w1 = Some (Normal tt, w2)
    /\ PokemonInfo (VStr "pikachu") w2 = Normal (PokemonInfoFallback (VStr "pikachu"))
    /\ step Microtask w2 = Some (Normal tt, w3)
    /\ PokemonInfo (VStr "pikachu") w3 = Normal (PokemonDataView (VStr "electric")).
Proof.
  apply (PokemonInfo_shows_the_fetch (fun _ => VPromise 0) (VStr "pikachu") 0
           (Fulfilled (VStr "electric"))
           (World Mounted true (AsyncState "idle" VNull VNull) [] ∅ [] []));
    reflexivity.
Defined.

(** X9: without a name [PokemonInfo] starts nothing and shows
    ['Submit a pokemon'] in every state, a [rejected] one included: the
    stored error is not thrown once the name is cleared. *)
Theorem PokemonInfo_without_name
    (fetchPokemon : value -> value) (pokemonName : value) (w : world) :
  truthy pokemonName = false ->
  PokemonInfo_effect fetchPokemon pokemonName w = (Normal tt, w)
  /\ PokemonInfo pokemonName w = Normal (Text "Submit a pokemon")
  /\ state (useAsync (PokemonInfo_initialState pokemonName))
     = AsyncState "idle" VNull VNull.
Proof.
  intros Hname. unfold PokemonInfo_effect, PokemonInfo, PokemonInfo_initialState.
  rewrite Hname. simpl negb. rewrite orb_true_r. repeat split.
Qed.

Lemma PokemonInfo_without_name_witness :
  PokemonInfo (VStr "")
    (World Mounted true (AsyncState "rejected" VNull (VStr "boom")) [] ∅ [] [])
  = Normal (Text "Submit a pokemon").
Proof.
  apply (PokemonInfo_without_name (fun _ => VPromise 0) (VStr "")
           (World Mounted true (AsyncState "rejected" VNull (VStr "boom")) [] ∅ [] [])).
  reflexivity.
Defined.

(** ** Addition on safe integers *)

Lemma safe_integer_spec (n : Z) :
  safe_integer n = true <-> (- 2 ^ 53 < n < 2 ^ 53)%Z.
Proof.
  unfold safe_integer. rewrite andb_true_iff, !Z.ltb_lt. tauto.
Qed.

Lemma js_add_safe (a b : Z) :
  safe_integer a = true -> safe_integer b = true -> safe_integer (a + b) = true ->
  js_add (VNum a) (VNum b) = Some (VNum (a + b)).
Proof. intros Ha Hb Hab. unfold js_add. simpl. rewrite Ha, Hb, Hab. reflexivity. Qed.

(** A partial sum of equal steps lies between the first and the last. *)
Lemma safe_integer_step (c s : Z) (n : nat) :
  safe_integer c = true -> safe_integer (c + Z.of_nat (S n) * s) = true ->
  safe_integer (c + s) = true.
Proof.
  rewrite !safe_integer_spec. intros Hc Hn. nia.
Qed.

(** ** The simple counter *)

Lemma SimpleCounter_clicks_sum (props : obj) (s : Z) (n : nat) (c : Z) :
  SimpleCounter.step props = VNum s ->
  safe_integer c = true -> safe_integer s = true ->
  safe_integer (c + Z.of_nat n * s) = true ->
  SimpleCounter.clicks n props (VNum c) = Some (VNum (c + Z.of_nat n * s)).
Proof.
  intros Hstep Hc Hs. revert c Hc. induction n as [|n IH]; intros c Hc Hn.
  - simpl. do 2 f_equal. lia.
  - cbn [SimpleCounter.clicks].
    unfold SimpleCounter.increment, SimpleCounter.countReducer. rewrite Hstep.
    pose proof (safe_integer_step c s n Hc Hn) as Hcs.
    rewrite (js_add_safe c s Hc Hs Hcs).
    rewrite (IH (c + s)%Z Hcs).
    + do 2 f_equal. lia.
    + replace (c + s + Z.of_nat n * s)%Z with (c + Z.of_nat (S n) * s)%Z by lia.
      exact Hn.
Qed.

(** X10: the simple counter after [n] clicks shows its initial count plus
    [n] times its step, as long as these are safe integers; with the
    defaults ([initialCount = 0], [step = 2]), that is [2 n]. *)
Theorem SimpleCounter_counts (n : nat) (props : obj) (c s : Z) :
  SimpleCounter.initialCount props = VNum c ->
  SimpleCounter.step props = VNum s ->
  safe_integer c = true -> safe_integer s = true ->
  safe_integer (c + Z.of_nat n * s) = true ->
  SimpleCounter.Counter n props = Some (VNum (c + Z.of_nat n * s)).
Proof.
  intros Hinit Hstep Hc Hs Hn. unfold SimpleCounter.Counter. rewrite Hinit.
  apply SimpleCounter_clicks_sum; assumption.
Qed.

Lemma SimpleCounter_counts_witness :
  SimpleCounter.Counter 3 ∅ = Some (VNum 6).
Proof.
  apply (SimpleCounter_counts 3 ∅ 0 2); reflexivity.
Defined.

(** ** The counter with an action object *)

Lemma destructure_read_prop (action : value) (k : string) (v : value) :
  read_prop action "type" = Normal v ->
  ActionCounter.destructure action k = read_prop action k.
Proof. destruct action; simpl; intros H; try discriminate; reflexivity. Qed.

Lemma ActionCounter_increment_spec (state extra : obj) (c s : Z) :
  state !! "count" = Some (VNum c) ->
  safe_integer c = true -> safe_integer s = true -> safe_integer (c + s) = true ->
  ActionCounter.countReducer
    (VObject state)
    (VObject (<["type" := VStr "INCREMENT"]> (<["step" := VNum s]> extra)))
  = Some (Normal (<["count" := VNum (c + s)]> state))
  /\ forall k, k <> "count" ->
       (<["count" := VNum (c + s)]> state : obj) !! k = state !! k.
Proof.
  intros Hcount Hc Hs Hcs. split.
  - unfold ActionCounter.countReducer, ActionCounter.destructure, read_prop, get_prop.
    rewrite lookup_insert_eq. simpl.
    rewrite lookup_insert_ne by discriminate. rewrite lookup_insert_eq. simpl.
    rewrite Hcount. simpl. rewrite (js_add_safe c s Hc Hs Hcs). reflexivity.
  - intros k Hk. apply lookup_insert_ne. congruence.
Qed.

(** X11: ['INCREMENT'] replaces [count] by [count + step] and keeps every
    other property of the state, whatever else the action holds. *)
Theorem ActionCounter_increment_adds_step (state extra : obj) (c s : Z) :
  state !! "count" = Some (VNum c) ->
  safe_integer c = true -> safe_integer s = true -> safe_integer (c + s) = true ->
  ActionCounter.countReducer
    (VObject state)
    (VObject (<["type" := VStr "INCREMENT"]> (<["step" := VNum s]> extra)))
  = Some (Normal (<["count" := VNum (c + s)]> state))
  /\ forall k, k <> "count" ->
       (<["count" := VNum (c + s)]> state : obj) !! k = state !! k.
Proof. apply ActionCounter_increment_spec. Qed.

Lemma ActionCounter_increment_adds_step_witness :
  ActionCounter.countReducer
    (VObject {[ "count" := VNum 4; "label" := VStr "clicks" ]})
    (VObject {[ "type" := VStr "INCREMENT"; "step" := VNum 3 ]})
  = Some (Normal {[ "count" := VNum 7; "label" := VStr "clicks" ]}).
Proof.
  pose proof (proj1 (ActionCounter_increment_adds_step
                       {[ "count" := VNum 4; "label" := VStr "clicks" ]} ∅ 4 3
                       eq_refl eq_refl eq_refl eq_refl)) as H.
  vm_compute in H. vm_compute. exact H.
Defined.

(** X12: an action whose [type] is not ['INCREMENT'] makes this reducer
    throw [Error("Unsupported action type: <type>")], whatever the state;
    the type is any value whose text is exact (every string, [undefined],
    [null], a boolean, a safe integer, an object without an own
    [toString]). *)
Theorem ActionCounter_unsupported_action_throws (state action ty : value) :
  read_prop action "type" = Normal ty ->
  prints_exactly ty = true ->
  ty <> VStr "INCREMENT" ->
  ActionCounter.countReducer state action
  = Some (Throw (new_Error ("Unsupported action type: " +:+ to_string ty))).
Proof.
  intros Hty _ Hne. unfold ActionCounter.countReducer.
  rewrite !(destructure_read_prop action _ ty Hty). rewrite Hty.
  destruct (read_prop action "step") as [st|e] eqn:Hstep.
  - rewrite (strict_eq_str_false _ _ Hne). reflexivity.
  - destruct action; simpl in Hty, Hstep; discriminate.
Qed.

Lemma ActionCounter_unsupported_action_throws_witness :
  ActionCounter.countReducer VNull (VObject {[ "type" := VStr "DECREMENT" ]})
  = Some (Throw (new_Error "Unsupported action type: DECREMENT")).
Proof.
  apply (ActionCounter_unsupported_action_throws VNull _ (VStr "DECREMENT"));
    [reflexivity | reflexivity | discriminate].
Defined.

Lemma ActionCounter_clicks_sum (props : obj) (s : Z) (n : nat) (c : Z) :
  ActionCounter.step props = VNum s ->
  safe_integer c = true -> safe_integer s = true ->
  safe_integer (c + Z.of_nat n * s) = true ->
  ActionCounter.clicks n props {[ "count" := VNum c ]}
  = Some (Normal {[ "count" := VNum (c + Z.of_nat n * s) ]}).
Proof.
  intros Hstep Hc Hs. revert c Hc. induction n as [|n IH]; intros c Hc Hn.
  - simpl. do 4 f_equal. lia.
  - cbn [ActionCounter.clicks].
    pose proof (safe_integer_step c s n Hc Hn) as Hcs.
    assert (Hinc : ActionCounter.increment props {[ "count" := VNum c ]}
                   = Some (Normal {[ "count" := VNum (c + s) ]})).
    { unfold ActionCounter.increment. rewrite Hstep.
      change ({[ "type" := VStr "INCREMENT"; "step" := VNum s ]} : obj)
        with (<["type" := VStr "INCREMENT"]> (<["step" := VNum s]> (∅ : obj))).
      rewrite (proj1 (ActionCounter_increment_spec {[ "count" := VNum c ]} ∅ c s
                        (lookup_singleton_eq _ _) Hc Hs Hcs)).
      rewrite insert_singleton_eq. reflexivity. }
    rewrite Hinc. rewrite (IH (c + s)%Z Hcs).
    + do 4 f_equal. lia.
    + replace (c + s + Z.of_nat n * s)%Z with (c + Z.of_nat (S n) * s)%Z by lia.
      exact Hn.
Qed.

(** X13: the counter with an action object shows, after [n] clicks, its
    initial count plus [n] times its step, as long as these are safe
    integers; with the defaults ([initialCount = 0], [step = 1]), that is
    [n]. *)
Theorem ActionCounter_counts (n : nat) (props : obj) (c s : Z) :
  ActionCounter.initialCount props = VNum c ->
  ActionCounter.step props = VNum s ->
  safe_integer c = true -> safe_integer s = true ->
  safe_integer (c + Z.of_nat n * s) = true ->
  ActionCounter.Counter n props = Some (Normal (VNum (c + Z.of_nat n * s))).
Proof.
  intros Hinit Hstep Hc Hs Hn.
  unfold ActionCounter.Counter, ActionCounter.initialState. rewrite Hinit.
  rewrite (ActionCounter_clicks_sum props s n c Hstep Hc Hs Hn). reflexivity.
Qed.

Lemma ActionCounter_counts_witness :
  ActionCounter.Counter 5 ∅ = Some (Normal (VNum 5)).
Proof.
  apply (ActionCounter_counts 5 ∅ 0 1); reflexivity.
Defined.

(** ** A count that is a string *)

Lemma string_append_assoc (a b c : string) : (a +:+ b) +:+ c = a +:+ (b +:+ c).
Proof.
  induction a as [|ch a IH]; [reflexivity|].
  change (String ch ((a +:+ b) +:+ c) = String ch (a +:+ (b +:+ c))).
  f_equal. exact IH.
Qed.

Lemma string_append_empty_r (a : string) : a +:+ "" = a.
Proof.
  induction a as [|ch a IH]; [reflexivity|].
  change (String ch (a +:+ "") = String ch a). f_equal. exact IH.
Qed.

(** X14: when the initial count of the simple counter is a string (a prop
    taken from a form, say), a click does not add: it appends the text of
    the step, so [n] clicks leave the string followed by [n] copies of
    it.  The step is any value whose text is exact (a safe integer such as
    the default 2, a string, a boolean, [null]). *)
Theorem SimpleCounter_string_count_concatenates
    (n : nat) (props : obj) (t : string) :
  SimpleCounter.initialCount props = VStr t ->
  prints_exactly (SimpleCounter.step props) = true ->
  SimpleCounter.Counter n props
  = Some (VStr (t +:+ string_repeat (to_string (SimpleCounter.step props)) n)).
Proof.
  intros Hinit Hstep. unfold SimpleCounter.Counter. rewrite Hinit. clear Hinit.
  revert t. induction n as [|n IH]; intros t.
  - simpl. rewrite string_append_empty_r. reflexivity.
  - cbn [SimpleCounter.clicks string_repeat].
    unfold SimpleCounter.increment, SimpleCounter.countReducer, js_add.
    cbn [adds_as_string orb prints_exactly andb to_string]. rewrite Hstep.
    rewrite IH, string_append_assoc. reflexivity.
Qed.

Lemma SimpleCounter_string_count_concatenates_witness :
  SimpleCounter.Counter 3 {[ "initialCount" := VStr "1" ]} = Some (VStr "1222").
Proof.
  assert (Hinit : SimpleCounter.initialCount {[ "initialCount" := VStr "1" ]} = VStr "1")
    by reflexivity.
  assert (Hstep : prints_exactly (SimpleCounter.step {[ "initialCount" := VStr "1" ]})
                  = true) by reflexivity.
  rewrite (SimpleCounter_string_count_concatenates
             3 {[ "initialCount" := VStr "1" ]} "1" Hinit Hstep).
  reflexivity.
Defined.

(** ** The count context *)

(** X15: [useCount] outside every provider throws
    [Error('useCount must be used within a CountProvider')].  Under a
    [CountProvider] it returns the provider's [[count, setCount]], unless
    the provider was given a [value] prop: that prop replaces the pair,
    and when it is [undefined] [useCount] throws the same error although a
    provider is there. *)
Theorem useCount_under_CountProvider (count : value) (props : obj) :
  CountContext.useCount None
  = Throw (new_Error "useCount must be used within a CountProvider")
  /\ CountContext.useCount (Some (CountContext.CountProvider count props))
     = match props !! "value" with
       | None => Normal (CountContext.CountPair count)
       | Some VUndefined =>
           Throw (new_Error "useCount must be used within a CountProvider")
       | Some v => Normal (CountContext.Plain v)
       end.
Proof.
  split; [reflexivity|].
  unfold CountContext.useCount, CountContext.CountProvider, CountContext.useContext.
  destruct (props !! "value") as [v|]; [destruct v|]; reflexivity.
Qed.

Lemma CountContext_clicks_count (n : nat) (c : Z) :
  safe_integer c = true -> safe_integer (c + Z.of_nat n) = true ->
  CountContext.clicks n (VNum c) = Some (VNum (c + Z.of_nat n)).
Proof.
  revert c. induction n as [|n IH]; intros c Hc Hn.
  - simpl. do 2 f_equal. lia.
  - cbn [CountContext.clicks]. unfold CountContext.increment.
    assert (Hc1 : safe_integer (c + 1) = true).
    { apply (safe_integer_step c 1 n Hc).
      replace (c + Z.of_nat (S n) * 1)%Z with (c + Z.of_nat (S n))%Z by lia. exact Hn. }
    rewrite (js_add_safe c 1 Hc eq_refl Hc1).
    rewrite (IH (c + 1)%Z Hc1).
    + do 2 f_equal. lia.
    + replace (c + 1 + Z.of_nat n)%Z with (c + Z.of_nat (S n))%Z by lia. exact Hn.
Qed.

(** X16: the context counter starts at 0 and, after [n] clicks on the
    button, the display under the same provider reads
    ["The current count is n"]; neither component throws. *)
Theorem CountContext_App_displays_clicks (n : nat) (props : obj) :
  props !! "value" = None ->
  safe_integer (Z.of_nat n) = true ->
  CountContext.App n props
  = Some (Normal ("The current count is " +:+ string_of_Z (Z.of_nat n))).
Proof.
  intros Hprops Hn. unfold CountContext.App.
  rewrite (CountContext_clicks_count n 0 eq_refl Hn).
  unfold CountContext.CountDisplay, CountContext.useCount, CountContext.CountProvider,
    CountContext.useContext.
  rewrite Hprops. reflexivity.
Qed.

Lemma CountContext_App_displays_clicks_witness :
  CountContext.App 12 {[ "children" := VNull ]}
  = Some (Normal "The current count is 12").
Proof.
  apply (CountContext_App_displays_clicks 12 {[ "children" := VNull ]});
    reflexivity.
Defined.
